(** * treq.testing: stub responses, stub strategies and the StubTreq facade

    A shallow embedding of [src/treq/testing.py].  Python objects become
    records, the two stub strategies share one interface (a type class),
    exceptions are values of [exn], and every method runs in a small
    state-and-exception monad over the object it is called on, so that
    "this call does not change the object" is a statement one can prove. *)

From stdpp Require Import gmap strings list fin_maps.
From Stdlib Require Import Strings.Ascii Strings.String Strings.Byte.

Local Open Scope string_scope.

(** ** Python values that occur in requests and responses *)

#[global] Instance byte_eq_dec : EqDecision Byte.byte := Byte.byte_eq_dec.

(** A header value is a string or a sequence of strings. *)
Inductive hval :=
  | HStr (s : string)
  | HSeq (l : list string).

#[global] Instance hval_eq_dec : EqDecision hval.
Proof. solve_decision. Defined.

(** The values passed as keyword arguments and stored as response data.
    No two constructors hold values that Python's [==] identifies, so
    Python equality on them is structural equality. *)
Inductive pyval :=
  | VNone
  | VInt (n : Z)
  | VStr (s : string)
  | VBytes (b : list Byte.byte)
  | VDict (d : gmap string hval).

#[global] Instance pyval_eq_dec : EqDecision pyval.
Proof. solve_decision. Defined.

(** [(method, url, kwargs)]: the request tuple of the stubs. *)
Definition request : Type := string * string * gmap string pyval.

(** ** StubResponse *)

Module StubResponse.

Record t := __init__ {
  code : Z;
  headers : gmap string hval;
  _data : pyval
}.

#[global] Instance t_eq_dec : EqDecision t.
Proof. solve_decision. Defined.

(** What the right operand of [==] can be: a [StubResponse] (the module
    defines no subclass of it) or a value of another type. *)
Inductive pyobj :=
  | ObjStubResponse (r : t)
  | ObjValue (v : pyval).

(** [isinstance(other, self.__class__)] *)
Definition isinstance (other : pyobj) : bool :=
  match other with
  | ObjStubResponse _ => true
  | ObjValue _ => false
  end.

(** [isinstance(other, self.__class__) and self.code == other.code and
    self.headers == other.headers and self._data == other._data];
    [and] evaluates its right operand only when the left one is true, so
    the fields of [other] are read only when it is a [StubResponse]. *)
Definition __eq__ (self : t) (other : pyobj) : bool :=
  match other with
  | ObjStubResponse o =>
      isinstance other
      && bool_decide (code self = code o)
      && bool_decide (headers self = headers o)
      && bool_decide (_data self = _data o)
  | ObjValue _ => isinstance other
  end.

(** [not self == other] *)
Definition __ne__ (self : t) (other : pyobj) : bool :=
  negb (__eq__ self other).

End StubResponse.

(** ** Exceptions and the monad of method calls *)

Inductive exn_class := Exception | ValueError | AttributeError.

(** An argument of [str.format]: [{n}] prints a string, [{n!r}] the
    [repr] of a Python value. *)
Inductive fmt_arg :=
  | FStr (s : string)
  | FReprRequest (r : request)
  | FReprResponse (r : StubResponse.t)
  | FReprKwargs (k : gmap string pyval).

(** A raised exception: its class and its message, kept as the format
    string and the arguments given to [format]. *)
Record exn := mk_exn {
  exn_class_of : exn_class;
  exn_format : string;
  exn_args : list fmt_arg
}.

Inductive result (A : Type) :=
  | Ok (a : A)
  | Raise (e : exn).
Arguments Ok {A} a.
Arguments Raise {A} e.

(** A method of an object of type [S]: it returns or raises, and hands
    back the object as the call left it. *)
Definition Py (S A : Type) : Type := S → result A * S.

Definition py_ret {S A} (a : A) : Py S A := λ s, (Ok a, s).
Definition py_raise {S A} (e : exn) : Py S A := λ s, (Raise e, s).
Definition py_self {S} : Py S S := λ s, (Ok s, s).
Definition py_bind {S A B} (m : Py S A) (k : A → Py S B) : Py S B :=
  λ s, match m s with
       | (Ok a, s') => k a s'
       | (Raise e, s') => (Raise e, s')
       end.

Declare Scope py_scope.
Delimit Scope py_scope with py.
Notation "x <~ m ;; k" := (py_bind m (λ x, k))
  (at level 100, m at next level, right associativity) : py_scope.

(** Python's [==] on two request tuples: component by component. *)
Definition request_eqb (a b : request) : bool :=
  let '(m1, u1, k1) := a in
  let '(m2, u2, k2) := b in
  String.eqb m1 m2 && String.eqb u1 u2 && bool_decide (k1 = k2).

Definition stub : Type := request * StubResponse.t.

(** The interface the facade expects of [self.stubs]. *)
Class MatchStrategy (S : Type) :=
  get_response : string → string → gmap string pyval → Py S StubResponse.t.

(** ** ResponseMapping: the association list *)

Module ResponseMapping.

Record t := mk { stubs : list stub }.

Definition duplicate_error (item itemagain : stub) : exn :=
  mk_exn Exception
    "Duplicate requests and responses: {0!r}:{1!r} and {2!r}:{3!r}"
    [FReprRequest item.1; FReprResponse item.2;
     FReprRequest itemagain.1; FReprResponse itemagain.2].

(** [for itemagain in self.stubs[i + 1:]: if item[0] == itemagain[0]: raise] *)
Fixpoint check_item (item : stub) (later : list stub) : result unit :=
  match later with
  | [] => Ok tt
  | itemagain :: later' =>
      if request_eqb item.1 itemagain.1
      then Raise (duplicate_error item itemagain)
      else check_item item later'
  end.

(** [for i, item in enumerate(self.stubs): ...]; [todo] is what the outer
    loop has still to visit, [i] the index of its head, and the slice
    [self.stubs[i + 1:]] is taken from the whole list each time. *)
Fixpoint check_from (all : list stub) (i : nat) (todo : list stub)
  : result unit :=
  match todo with
  | [] => Ok tt
  | item :: todo' =>
      match check_item item (drop (S i) all) with
      | Raise e => Raise e
      | Ok _ => check_from all (S i) todo'
      end
  end.

(** The constructor: [stubs=None] stands for the empty list; the object
    exists only when the check raised nothing. *)
Definition __init__ (stubs : option (list stub)) : result t :=
  let self_stubs := match stubs with None => [] | Some l => l end in
  match check_from self_stubs 0 self_stubs with
  | Raise e => Raise e
  | Ok _ => Ok (mk self_stubs)
  end.

Definition not_mapped_error (method url : string) (kwargs : gmap string pyval)
  : exn :=
  mk_exn ValueError "No response mapped to ({0}, {1}, {2!r}"
    [FStr method; FStr url; FReprKwargs kwargs].

(** [for req, resp in self.stubs: if req == (method, url, kwargs): return resp] *)
Fixpoint scan (entries : list stub) (key : request)
  : option StubResponse.t :=
  match entries with
  | [] => None
  | (req, resp) :: entries' =>
      if request_eqb req key then Some resp else scan entries' key
  end.

Definition get_response (method url : string) (kwargs : gmap string pyval)
  : Py t StubResponse.t :=
  (self <~ py_self ;;
   match scan (stubs self) (method, url, kwargs) with
   | Some resp => py_ret resp
   | None => py_raise (not_mapped_error method url kwargs)
   end)%py.

#[global] Instance strategy : MatchStrategy t := get_response.

End ResponseMapping.

(** ** ResponseSequence *)

Module ResponseSequence.

Record t := mk { stubs : list stub }.

Definition __init__ (stubs : option (list stub)) : result t :=
  Ok (mk (match stubs with None => [] | Some l => l end)).

Definition not_expecting_error (method url : string)
  (kwargs : gmap string pyval) : exn :=
  mk_exn ValueError "Not expecting request ({0}, {1}, {2!r}"
    [FStr method; FStr url; FReprKwargs kwargs].

(** [if len(self.stubs) > 0: expected_req, resp = self.stubs[0]; if
    expected_req == (method, url, kwargs): return resp] and otherwise the
    [raise]; nothing is assigned to [self.stubs]. *)
Definition get_response (method url : string) (kwargs : gmap string pyval)
  : Py t StubResponse.t :=
  (self <~ py_self ;;
   if bool_decide (0 < List.length (stubs self))%nat then
     match stubs self !! 0%nat with
     | Some (expected_req, resp) =>
         if request_eqb expected_req (method, url, kwargs)
         then py_ret resp
         else py_raise (not_expecting_error method url kwargs)
     | None => py_raise (not_expecting_error method url kwargs)
     end
   else py_raise (not_expecting_error method url kwargs))%py.

#[global] Instance strategy : MatchStrategy t := get_response.

End ResponseSequence.

(** ** Deferreds that have already fired *)

(** [twisted.internet.defer.succeed(x)] builds a Deferred whose result is
    [x]; a Deferred can also hold a failure, which nothing here builds. *)
Inductive Deferred (A : Type) :=
  | Succeeded (a : A)
  | Failed (e : exn).
Arguments Succeeded {A} a.
Arguments Failed {A} e.

Definition succeed {A} (a : A) : Deferred A := Succeeded a.

(** [str.upper] on ASCII letters. *)
Definition ascii_upper (c : ascii) : ascii :=
  let n := nat_of_ascii c in
  if (97 <=? n)%nat && (n <=? 122)%nat then ascii_of_nat (n - 32) else c.

Fixpoint upper (s : string) : string :=
  match s with
  | EmptyString => EmptyString
  | String c s' => String (ascii_upper c) (upper s')
  end.

(** ** StubTreq *)

Module StubTreq.

Section Facade.
Context {S : Type} `{MatchStrategy S}.

Record t := __init__ { stubs : S }.

(** Run a method of [self.stubs] from a method of the facade. *)
Definition on_stubs {A} (m : Py S A) : Py t A :=
  λ self, let '(r, s') := m (stubs self) in (r, __init__ s').

(** [resp = self.stubs.get_response(method, url, **kwargs);
     return succeed(resp)] *)
Definition request (method url : string) (kwargs : gmap string pyval)
  : Py t (Deferred StubResponse.t) :=
  (resp <~ on_stubs (get_response method url kwargs) ;;
   py_ret (succeed resp))%py.

(** [return succeed(response._data)] *)
Definition content (response : StubResponse.t) : Py t (Deferred pyval) :=
  py_ret (succeed (StubResponse._data response)).

(** How Python binds the keywords of a call [f(url, **keywords)] to the
    signature [(self, url, data=None, **kwargs)]: [data] takes the
    keyword of that name, or the default, and [kwargs] the others.
    (A keyword named like a positional parameter makes the call itself
    raise [TypeError] before any body runs, for [put] and for [request]
    alike; such calls are outside this model.) *)
Definition bind_data (keywords : gmap string pyval)
  : pyval * gmap string pyval :=
  (default VNone (keywords !! "data"), delete "data" keywords).

(** [return self.request('PUT', url, data=data, **kwargs)] *)
Definition put (url : string) (keywords : gmap string pyval)
  : Py t (Deferred StubResponse.t) :=
  let '(data, kwargs) := bind_data keywords in
  request "PUT" url (<["data" := data]> kwargs).

(** [return self.request('POST', url, data=data, **kwargs)] *)
Definition post (url : string) (keywords : gmap string pyval)
  : Py t (Deferred StubResponse.t) :=
  let '(data, kwargs) := bind_data keywords in
  request "POST" url (<["data" := data]> kwargs).

(** What [__getattr__] returns: [partial(self.request, m)]. *)
Inductive callable :=
  | partial_request (method : string).

Definition call (f : callable) (url : string) (kwargs : gmap string pyval)
  : Py t (Deferred StubResponse.t) :=
  match f with
  | partial_request m => request m url kwargs
  end.

Definition no_attribute_error (method : string) : exn :=
  mk_exn AttributeError "StubTreq has no attribute '{0}'" [FStr method].

(** [if method in ('get', 'head', 'delete'): return partial(...)] and
    otherwise the [raise].  Python calls [__getattr__] only for a name
    that normal lookup did not find, so never for [request], [put],
    [post], [content] or [stubs]. *)
Definition __getattr__ (method : string) : Py t callable :=
  if existsb (String.eqb method) ["get"; "head"; "delete"]
  then py_ret (partial_request (upper method))
  else py_raise (no_attribute_error method).

End Facade.
Arguments t S : clear implicits.

End StubTreq.

(** A run of calls to [get_response], in order, on one strategy object. *)
Fixpoint run_calls {S} `{MatchStrategy S} (calls : list request) (s : S)
  : list (result StubResponse.t) * S :=
  match calls with
  | [] => ([], s)
  | (method, url, kwargs) :: calls' =>
      let '(r, s') := get_response method url kwargs s in
      let '(rs, s'') := run_calls calls' s' in
      (r :: rs, s'')
  end.

(** * Vocabulary of the statements, and sample stubs *)

(** Two entries at different positions with equal request tuples. *)
Definition has_duplicate (entries : list stub) : Prop :=
  ∃ i j (a b : stub), (i < j)%nat ∧ entries !! i = Some a
    ∧ entries !! j = Some b ∧ a.1 = b.1.

(** What one call decides: the first entry, if there is one, against the
    request of the call. *)
Definition first_entry_outcome (entries : list stub) (c : request)
  : result StubResponse.t :=
  match entries with
  | (expected_req, resp) :: _ =>
      if request_eqb expected_req c then Ok resp
      else Raise (ResponseSequence.not_expecting_error c.1.1 c.1.2 c.2)
  | [] => Raise (ResponseSequence.not_expecting_error c.1.1 c.1.2 c.2)
  end.


Definition response_200 : StubResponse.t :=
  StubResponse.__init__ 200 ∅ (VBytes [Byte.x6f; Byte.x6b]).
Definition response_404 : StubResponse.t :=
  StubResponse.__init__ 404 ∅ VNone.
Definition get_a : request := ("GET", "http://a", ∅).
Definition get_b : request := ("GET", "http://b", ∅).

(** A client over a mapping with one stub, and [b'ok'] as its data. *)
Definition client_x : StubTreq.t ResponseMapping.t :=
  StubTreq.__init__
    (ResponseMapping.mk [(("GET", "http://x", ∅), response_200)]).

(** Stubs in which [get_a] and [get_b] both come twice, stubs without a
    clash, and a client whose one stub is a PUT with [data=None]. *)
Definition clashing_stubs : list stub :=
  [(get_a, response_200); (get_b, response_404);
   (get_a, response_404); (get_b, response_200)].
Definition two_stubs : list stub :=
  [(get_a, response_200); (get_b, response_404)].
Definition put_client : StubTreq.t ResponseMapping.t :=
  StubTreq.__init__
    (ResponseMapping.mk
       [(("PUT", "http://x", {["data" := VNone]}), response_200)]).

(** No method of the facade changes the client it is called on. *)
Definition client_unchanged_by_calls {S : Type} `{MatchStrategy S}
    (self : StubTreq.t S) : Prop :=
  ∀ (method url name : string) (kwargs keywords : gmap string pyval)
    (response : StubResponse.t) (f : StubTreq.callable),
    (StubTreq.request method url kwargs self).2 = self
    ∧ (StubTreq.put url keywords self).2 = self
    ∧ (StubTreq.post url keywords self).2 = self
    ∧ (StubTreq.content response self).2 = self
    ∧ (StubTreq.__getattr__ name self).2 = self
    ∧ (StubTreq.call f url kwargs self).2 = self.

(** * Properties *)

(** ** Equality of requests *)

Lemma request_eqb_eq (a b : request) : request_eqb a b = true ↔ a = b.
Proof.
  destruct a as [[m1 u1] k1], b as [[m2 u2] k2]; simpl.
  rewrite !andb_true_iff, !String.eqb_eq, bool_decide_eq_true.
  split; [intros [[-> ->] ->] | intros [= -> -> ->]]; done.
Qed.

Lemma request_eqb_neq (a b : request) : request_eqb a b = false ↔ a ≠ b.
Proof.
  rewrite <- request_eqb_eq. destruct (request_eqb a b); naive_solver.
Qed.

Lemma request_eqb_refl (a : request) : request_eqb a a = true.
Proof. by apply request_eqb_eq. Qed.

(** ** StubResponse *)

(** C6. [a == b] is true exactly when [b] is a [StubResponse] whose
    code, headers and data equal those of [a]; [a == a] is true; and
    [a != b] is the negation of [a == b]. *)
Theorem StubResponse_eq_spec (a : StubResponse.t) (b : StubResponse.pyobj) :
  (StubResponse.__eq__ a b = true ↔
     StubResponse.isinstance b = true ∧
     ∃ rb, b = StubResponse.ObjStubResponse rb
           ∧ StubResponse.code a = StubResponse.code rb
           ∧ StubResponse.headers a = StubResponse.headers rb
           ∧ StubResponse._data a = StubResponse._data rb)
  ∧ StubResponse.__eq__ a (StubResponse.ObjStubResponse a) = true
  ∧ StubResponse.__ne__ a b = negb (StubResponse.__eq__ a b).
Proof.
  split; [| split].
  - destruct b as [rb | v]; simpl.
    + rewrite !andb_true_iff, !bool_decide_eq_true. split.
      * intros [[Hc Hh] Hd]. split; [done |]. by exists rb.
      * intros [_ (rb' & [= <-] & Hc & Hh & Hd)]. done.
    + split; [done |]. by intros [? _].
  - simpl. by rewrite !bool_decide_eq_true_2.
  - reflexivity.
Qed.

(** ** ResponseMapping *)

Section Mapping.
Import ResponseMapping.

Lemma check_item_ok (item : stub) (later : list stub) (u : unit) :
  check_item item later = Ok u → ∀ y : stub, y ∈ later → item.1 ≠ y.1.
Proof.
  induction later as [| x later IH]; simpl; intros Hok y Hy.
  - by apply elem_of_nil in Hy.
  - destruct (request_eqb item.1 x.1) eqn:E; [done |].
    apply request_eqb_neq in E.
    apply elem_of_cons in Hy as [-> | Hy]; [done | by apply IH].
Qed.

Lemma check_item_raise (item : stub) (later : list stub) (e : exn) :
  check_item item later = Raise e →
  ∃ k (y : stub), later !! k = Some y ∧ item.1 = y.1
    ∧ e = duplicate_error item y.
Proof.
  induction later as [| x later IH]; simpl; [done |].
  destruct (request_eqb item.1 x.1) eqn:E.
  - intros [= <-]. apply request_eqb_eq in E. by exists 0%nat, x.
  - intros (k & y & Hk & Hy & He)%IH. by exists (S k), y.
Qed.

Lemma drop_cons_inv {A} (l : list A) (i : nat) (x : A) (rest : list A) :
  drop i l = x :: rest → l !! i = Some x ∧ drop (S i) l = rest.
Proof.
  revert i. induction l as [| y l IH]; intros [| i]; simpl; try done.
  - intros [= -> ->]. split; [done | by rewrite drop_0].
  - apply IH.
Qed.

Lemma check_from_raise (all todo : list stub) (i : nat) (e : exn) :
  drop i all = todo →
  check_from all i todo = Raise e →
  ∃ i' j (a b : stub), (i ≤ i' < j)%nat ∧ all !! i' = Some a
    ∧ all !! j = Some b ∧ a.1 = b.1 ∧ e = duplicate_error a b.
Proof.
  revert i. induction todo as [| item todo IH]; intros i Hdrop; simpl; [done |].
  destruct (drop_cons_inv _ _ _ _ Hdrop) as [Hi Hdrop'].
  destruct (check_item item (drop (S i) all)) as [u | e'] eqn:E.
  - intros (i' & j & a & b & Hij & Ha & Hb & Hab & He)%(IH _ Hdrop').
    exists i', j, a, b. repeat split; try done; lia.
  - intros [= ->].
    apply check_item_raise in E as (k & y & Hk & Hy & He).
    rewrite lookup_drop in Hk.
    exists i, (S i + k)%nat, item, y. repeat split; try done; lia.
Qed.

Lemma check_from_ok (all todo : list stub) (i : nat) (u : unit) :
  drop i all = todo →
  check_from all i todo = Ok u →
  ∀ i' j (a b : stub), (i ≤ i' < j)%nat →
    all !! i' = Some a → all !! j = Some b → a.1 ≠ b.1.
Proof.
  revert i. induction todo as [| item todo IH]; intros i Hdrop; simpl.
  - intros _ i' j a b Hij Ha _.
    apply lookup_lt_Some in Ha.
    assert (List.length (drop i all) = 0%nat) as Hl by by rewrite Hdrop.
    rewrite length_drop in Hl. unfold stub in *. lia.
  - destruct (drop_cons_inv _ _ _ _ Hdrop) as [Hi Hdrop'].
    destruct (check_item item (drop (S i) all)) as [u' | e'] eqn:E; [| done].
    intros Hok i' j a b Hij Ha Hb.
    destruct (decide (i' = i)) as [Heq | Hne].
    + subst i'. rewrite Hi in Ha. injection Ha as <-.
      apply (check_item_ok _ _ _ E).
      apply list_elem_of_lookup. exists (j - S i)%nat.
      rewrite lookup_drop. rewrite <- Hb. f_equal. lia.
    + apply (IH _ Hdrop' Hok i' j a b); [lia | done | done].
Qed.

End Mapping.

(** C3. Building a [ResponseMapping] raises exactly when two entries at
    different positions have equal request tuples, whatever their
    responses; the message of the exception is then the "Duplicate
    requests and responses" template filled, in this order, with the
    request and the response of one such entry and the request and the
    response of the other; and when no two requests are equal the object
    is built with the stubs it was given. *)
Theorem ResponseMapping_init_duplicates (entries : list stub) :
  ((∃ e, ResponseMapping.__init__ (Some entries) = Raise e)
     ↔ has_duplicate entries)
  ∧ (∀ e, ResponseMapping.__init__ (Some entries) = Raise e →
       ∃ i j (a b : stub), (i < j)%nat ∧ entries !! i = Some a
         ∧ entries !! j = Some b ∧ a.1 = b.1
         ∧ exn_class_of e = Exception
         ∧ exn_format e
           = "Duplicate requests and responses: {0!r}:{1!r} and {2!r}:{3!r}"
         ∧ exn_args e = [FReprRequest a.1; FReprResponse a.2;
                         FReprRequest b.1; FReprResponse b.2])
  ∧ (¬ has_duplicate entries →
       ResponseMapping.__init__ (Some entries)
       = Ok (ResponseMapping.mk entries)).
Proof.
  unfold ResponseMapping.__init__, has_duplicate.
  destruct (ResponseMapping.check_from entries 0 entries) as [u | e0] eqn:E.
  - pose proof (check_from_ok entries entries 0 u (drop_0 _) E) as Hok.
    split; [split |]; [| | split]; try done.
    + by intros [e ?].
    + intros (i & j & a & b & Hij & Ha & Hb & Hab).
      exfalso. apply (Hok i j a b); [lia | done | done | done].
  - apply check_from_raise in E as (i & j & a & b & Hij & Ha & Hb & Hab & He);
      [| apply drop_0].
    assert (has_duplicate entries) as Hdup.
    { exists i, j, a, b. repeat split; try done; lia. }
    split; [split |]; [| | split].
    + done.
    + intros _. by exists e0.
    + intros e [= <-]. exists i, j, a, b. subst e0.
      repeat split; try done; lia.
    + done.
Qed.

(** ** Strategies that hand the object back unchanged *)

Section Readonly.
Context {S : Type} `{MatchStrategy S}.
Hypothesis get_response_state :
  ∀ (s : S) method url kwargs, (get_response method url kwargs s).2 = s.

Lemma run_calls_readonly (calls : list request) (s : S) :
  run_calls calls s
  = (map (λ c : request, (get_response c.1.1 c.1.2 c.2 s).1) calls, s).
Proof.
  induction calls as [| [[m u] k] calls IH]; simpl; [done |].
  pose proof (get_response_state s m u k) as Hst.
  destruct (get_response m u k s) as [r s'].
  simpl in Hst. subst s'. by rewrite IH.
Qed.

End Readonly.

(** ** Lookup in a ResponseMapping *)

Lemma scan_Some (entries : list stub) (key : request) (resp : StubResponse.t) :
  ResponseMapping.scan entries key = Some resp ↔
  ∃ i, entries !! i = Some (key, resp)
       ∧ ∀ j (y : stub), (j < i)%nat → entries !! j = Some y → y.1 ≠ key.
Proof.
  revert resp. induction entries as [| [req r] entries IH]; intros resp; simpl.
  - split; [done | by intros [i [? _]]].
  - destruct (request_eqb req key) eqn:E.
    + apply request_eqb_eq in E as ->. split.
      * intros [= ->]. exists 0%nat. split; [done | intros; lia].
      * intros [[| i] [Hi Hfirst]]; [by injection Hi as -> |].
        exfalso. by apply (Hfirst 0%nat (key, r)); [lia | |].
    + apply request_eqb_neq in E. rewrite IH. split.
      * intros [i [Hi Hfirst]]. exists (S i). split; [done |].
        intros [| j] y Hj; simpl; [by intros [= <-] |].
        apply Hfirst. lia.
      * intros [[| i] [Hi Hfirst]]; [by injection Hi as -> |].
        exists i. split; [done |]. intros j y Hj Hy.
        apply (Hfirst (S j)); [lia | done].
Qed.

Lemma scan_None (entries : list stub) (key : request) :
  ResponseMapping.scan entries key = None ↔
  ∀ y : stub, y ∈ entries → y.1 ≠ key.
Proof.
  induction entries as [| [req r] entries IH]; simpl.
  - split; [intros _ y Hy; by apply elem_of_nil in Hy | done].
  - destruct (request_eqb req key) eqn:E.
    + apply request_eqb_eq in E as ->. split; [done |].
      intros Hall. exfalso. apply (Hall (key, r)); [left | done].
    + apply request_eqb_neq in E. rewrite IH. split.
      * intros Hall y [-> | Hy]%elem_of_cons; [done | by apply Hall].
      * intros Hall y Hy. apply Hall. by right.
Qed.

(** C4. [get_response] of a [ResponseMapping] returns the response of the
    first entry, in list order, whose request equals
    [(method, url, kwargs)]; when no entry has that request it raises a
    [ValueError] whose message is the "No response mapped to" template
    filled with the method, the url and the kwargs of the call. *)
Theorem ResponseMapping_get_response_first_match
    (self : ResponseMapping.t) (method url : string)
    (kwargs : gmap string pyval) :
  (∃ i resp,
      ResponseMapping.stubs self !! i = Some ((method, url, kwargs), resp)
      ∧ (∀ j (y : stub), (j < i)%nat →
           ResponseMapping.stubs self !! j = Some y →
           y.1 ≠ (method, url, kwargs))
      ∧ (ResponseMapping.get_response method url kwargs self).1 = Ok resp)
  ∨ ((∀ y : stub, y ∈ ResponseMapping.stubs self →
        y.1 ≠ (method, url, kwargs))
     ∧ ∃ e, (ResponseMapping.get_response method url kwargs self).1 = Raise e
            ∧ exn_class_of e = ValueError
            ∧ exn_format e = "No response mapped to ({0}, {1}, {2!r}"
            ∧ exn_args e = [FStr method; FStr url; FReprKwargs kwargs]).
Proof.
  unfold ResponseMapping.get_response, py_bind, py_self; simpl.
  destruct (ResponseMapping.scan (ResponseMapping.stubs self)
              (method, url, kwargs)) as [resp |] eqn:E.
  - left. apply scan_Some in E as [i [Hi Hfirst]]. by exists i, resp.
  - right. split; [by apply scan_None |].
    by exists (ResponseMapping.not_mapped_error method url kwargs).
Qed.

(** [get_response] of a [ResponseMapping] hands the object back as it
    received it. *)
Lemma ResponseMapping_get_response_state (self : ResponseMapping.t)
    (method url : string) (kwargs : gmap string pyval) :
  (ResponseMapping.get_response method url kwargs self).2 = self.
Proof.
  unfold ResponseMapping.get_response, py_bind, py_self; simpl.
  by destruct (ResponseMapping.scan _ _).
Qed.

(** C5. Whatever lookups are made on a [ResponseMapping], and in whatever
    order, the object is afterwards what it was before, entries
    included, and each lookup returns what the same lookup returns on
    the untouched object, so equal calls give equal results. *)
Theorem ResponseMapping_lookups_do_not_mutate
    (self : ResponseMapping.t) (calls : list request) :
  (run_calls calls self).2 = self
  ∧ ResponseMapping.stubs (run_calls calls self).2
    = ResponseMapping.stubs self
  ∧ (run_calls calls self).1
    = map (λ c : request,
             (ResponseMapping.get_response c.1.1 c.1.2 c.2 self).1) calls
  ∧ ∀ i j (c : request), calls !! i = Some c → calls !! j = Some c →
      (run_calls calls self).1 !! i = (run_calls calls self).1 !! j.
Proof.
  rewrite (run_calls_readonly ResponseMapping_get_response_state).
  simpl. repeat split; try done.
  intros i j c Hi Hj. rewrite !list_lookup_fmap, Hi, Hj. done.
Qed.

(** ** ResponseSequence *)

Lemma ResponseSequence_get_response_eq (self : ResponseSequence.t)
    (method url : string) (kwargs : gmap string pyval) :
  ResponseSequence.get_response method url kwargs self
  = (first_entry_outcome (ResponseSequence.stubs self) (method, url, kwargs),
     self).
Proof.
  unfold ResponseSequence.get_response, py_bind, py_self, first_entry_outcome.
  destruct self as [[| [req resp] entries]]; simpl; [done |].
  by destruct (request_eqb req (method, url, kwargs)).
Qed.

Lemma ResponseSequence_get_response_state (self : ResponseSequence.t)
    (method url : string) (kwargs : gmap string pyval) :
  (ResponseSequence.get_response method url kwargs self).2 = self.
Proof. by rewrite ResponseSequence_get_response_eq. Qed.

(** C9. [get_response] of a [ResponseSequence] leaves the object, and so
    its list of stubs, as it was, whether it returns or raises; the
    outcome is decided by the first entry alone; and this stays so over
    any run of calls. *)
Theorem ResponseSequence_get_response_does_not_mutate
    (self : ResponseSequence.t) (method url : string)
    (kwargs : gmap string pyval) :
  (ResponseSequence.get_response method url kwargs self).2 = self
  ∧ ResponseSequence.stubs
      (ResponseSequence.get_response method url kwargs self).2
    = ResponseSequence.stubs self
  ∧ (ResponseSequence.get_response method url kwargs self).1
    = first_entry_outcome (ResponseSequence.stubs self) (method, url, kwargs)
  ∧ ∀ calls : list request,
      run_calls calls self
      = (map (first_entry_outcome (ResponseSequence.stubs self)) calls, self).
Proof.
  rewrite ResponseSequence_get_response_eq; simpl.
  repeat split; try done.
  intros calls.
  rewrite (run_calls_readonly ResponseSequence_get_response_state).
  f_equal. apply map_ext. intros [[m u] k]; simpl.
  unfold get_response, ResponseSequence.strategy.
  by rewrite ResponseSequence_get_response_eq.
Qed.



(** ** StubTreq *)

Section FacadeFacts.
Context {S : Type} `{MatchStrategy S}.

Lemma request_unfold (self : StubTreq.t S) (method url : string)
    (kwargs : gmap string pyval) :
  StubTreq.request method url kwargs self
  = (match (get_response method url kwargs (StubTreq.stubs self)).1 with
     | Ok resp => Ok (succeed resp)
     | Raise e => Raise e
     end,
     StubTreq.__init__
       (get_response method url kwargs (StubTreq.stubs self)).2).
Proof.
  unfold StubTreq.request, StubTreq.on_stubs, py_bind, py_ret.
  by destruct (get_response method url kwargs (StubTreq.stubs self))
    as [[resp | e] s'].
Qed.

End FacadeFacts.

(** C2, as the code has it. [request] hands the method to the strategy as
    it was given, in whatever case: the outcome of
    [request(method, url, **kwargs)] is the outcome of the strategy's
    [get_response(method, url, **kwargs)], wrapped by [succeed] when it
    is a response.  With a [ResponseMapping] a response is therefore
    returned only for an entry whose method is the very string passed. *)
Theorem StubTreq_request_passes_method_unchanged :
  (∀ (S : Type) (strategy : MatchStrategy S) (self : StubTreq.t S)
     (method url : string) (kwargs : gmap string pyval),
     (StubTreq.request method url kwargs self).1
     = match (get_response method url kwargs (StubTreq.stubs self)).1 with
       | Ok resp => Ok (Succeeded resp)
       | Raise e => Raise e
       end)
  ∧ (∀ (self : StubTreq.t ResponseMapping.t) (method url : string)
       (kwargs : gmap string pyval) (d : Deferred StubResponse.t),
       (StubTreq.request method url kwargs self).1 = Ok d →
       ∃ resp, d = Succeeded resp
         ∧ ((method, url, kwargs), resp)
             ∈ ResponseMapping.stubs (StubTreq.stubs self)).
Proof.
  split.
  - intros S strategy self method url kwargs. by rewrite request_unfold.
  - intros self method url kwargs d. rewrite request_unfold; simpl.
    unfold get_response, ResponseMapping.strategy,
      ResponseMapping.get_response, py_bind, py_self; simpl.
    destruct (ResponseMapping.scan _ _) as [resp |] eqn:E; simpl; [| done].
    intros [= <-]. exists resp. split; [done |].
    apply scan_Some in E as [i [Hi _]].
    apply list_elem_of_lookup. by exists i.
Qed.

(** C2 fails on a mapping with the one stub [('GET', 'http://x', {})]:
    [request('GET', 'http://x')] returns its response and
    [request('get', 'http://x')] raises. *)
Lemma StubTreq_request_is_case_sensitive :
  (StubTreq.request "GET" "http://x" ∅ client_x).1
  = Ok (Succeeded response_200)
  ∧ (StubTreq.request "get" "http://x" ∅ client_x).1
    = Raise (ResponseMapping.not_mapped_error "get" "http://x" ∅)
  ∧ StubTreq.request "get" "http://x" ∅ client_x
    ≠ StubTreq.request "GET" "http://x" ∅ client_x.
Proof.
  split; [by vm_compute |]. split; [by vm_compute |].
  intros Heq. vm_compute in Heq. discriminate Heq.
Qed.

(** C10. When the strategy's [get_response] raises, [request] raises the
    same exception itself and returns no Deferred; when [request]
    returns, the strategy returned a response and the Deferred is the
    one [succeed] builds from it, never a failed one. *)
Theorem StubTreq_request_raises_synchronously
    {S : Type} `{MatchStrategy S} (self : StubTreq.t S)
    (method url : string) (kwargs : gmap string pyval) :
  (∀ e, (get_response method url kwargs (StubTreq.stubs self)).1 = Raise e →
        (StubTreq.request method url kwargs self).1 = Raise e)
  ∧ (∀ d, (StubTreq.request method url kwargs self).1 = Ok d →
        ∃ resp,
          (get_response method url kwargs (StubTreq.stubs self)).1 = Ok resp
          ∧ d = Succeeded resp)
  ∧ (∀ e, (StubTreq.request method url kwargs self).1 ≠ Ok (Failed e)).
Proof.
  rewrite request_unfold; simpl.
  destruct (get_response method url kwargs (StubTreq.stubs self)).1
    as [resp | e0].
  - split; [done |]. split; [| done].
    intros d [= <-]. by exists resp.
  - split; [by intros e [= ->] |]. by split.
Qed.

(** C7. [put(url, data=X, **kwargs)] is
    [request('PUT', url, data=X, **kwargs)] and [post(url, data=X,
    **kwargs)] is [request('POST', url, data=X, **kwargs)]: same result,
    same object afterwards, with [data] among the kwargs of the request. *)
Theorem StubTreq_put_post_delegate
    {S : Type} `{MatchStrategy S} (self : StubTreq.t S)
    (url : string) (X : pyval) (kwargs : gmap string pyval) :
  StubTreq.put url (<["data" := X]> kwargs) self
  = StubTreq.request "PUT" url (<["data" := X]> kwargs) self
  ∧ StubTreq.post url (<["data" := X]> kwargs) self
    = StubTreq.request "POST" url (<["data" := X]> kwargs) self
  ∧ (<["data" := X]> kwargs) !! "data" = Some X.
Proof.
  unfold StubTreq.put, StubTreq.post, StubTreq.bind_data.
  rewrite lookup_insert_eq; simpl.
  rewrite insert_delete_eq, insert_insert_eq. done.
Qed.

(** C8. [__getattr__] answers ['get'], ['head'] and ['delete'], and only
    them, with a callable that, applied to a url and kwargs, is [request]
    with the name in upper case; for every other name it raises an
    [AttributeError] whose message is built from that name. *)
Theorem StubTreq_getattr_spec
    {S : Type} `{MatchStrategy S} (self : StubTreq.t S) (name : string) :
  (name ∈ ["get"; "head"; "delete"] →
     ∃ f, StubTreq.__getattr__ name self = (Ok f, self)
          ∧ ∀ url kwargs (st : StubTreq.t S),
              StubTreq.call f url kwargs st
              = StubTreq.request (upper name) url kwargs st)
  ∧ (name ∉ ["get"; "head"; "delete"] →
     ∃ e, StubTreq.__getattr__ name self = (Raise e, self)
          ∧ exn_class_of e = AttributeError
          ∧ exn_format e = "StubTreq has no attribute '{0}'"
          ∧ exn_args e = [FStr name])
  ∧ upper "get" = "GET" ∧ upper "head" = "HEAD" ∧ upper "delete" = "DELETE".
Proof.
  assert (existsb (String.eqb name) ["get"; "head"; "delete"] = true
          ↔ name ∈ ["get"; "head"; "delete"]) as Hin.
  { rewrite existsb_exists. split.
    - intros (x & Hx & ->%String.eqb_eq). by apply list_elem_of_In.
    - intros Hn. exists name.
      split; [by apply list_elem_of_In | apply String.eqb_refl]. }
  unfold StubTreq.__getattr__.
  destruct (existsb (String.eqb name) ["get"; "head"; "delete"]) eqn:E.
  - split; [| split; [| done]].
    + intros _. by exists (StubTreq.partial_request (upper name)).
    + intros Hn. exfalso. by apply Hn, Hin.
  - split; [| split; [| done]].
    + intros Hy. apply Hin in Hy. done.
    + intros _. by exists (StubTreq.no_attribute_error name).
Qed.

(** ** Sample runs *)

(** A mapping with one stub: the request resolves to the stubbed
    response, and [content] of that response to its data. *)
Example request_then_content :
  (StubTreq.request "GET" "http://x" ∅ client_x).1
  = Ok (Succeeded response_200)
  ∧ (StubTreq.content response_200 client_x).1
    = Ok (Succeeded (VBytes [Byte.x6f; Byte.x6b])).
Proof. by vm_compute. Qed.

(** Two stubs for one request with different responses: the constructor
    raises and names both. *)
Example init_rejects_repeated_request :
  ResponseMapping.__init__
    (Some [(get_a, response_200); (get_b, response_404);
           (get_a, response_404)])
  = Raise (ResponseMapping.duplicate_error
             (get_a, response_200) (get_a, response_404)).
Proof. by vm_compute. Qed.

(** A sequence asked for its second request first raises. *)
Example sequence_rejects_out_of_order :
  (ResponseSequence.get_response "GET" "http://b" ∅
     (ResponseSequence.mk [(get_a, response_200); (get_b, response_404)])).1
  = Raise (ResponseSequence.not_expecting_error "GET" "http://b" ∅).
Proof. by vm_compute. Qed.

(** [stub_client.options] raises, [stub_client.delete] is a DELETE
    request, and [put] with no data asks for [data=None]. *)
Example getattr_options_and_delete :
  (StubTreq.__getattr__ "options" client_x).1
  = Raise (StubTreq.no_attribute_error "options")
  ∧ (StubTreq.__getattr__ "delete" client_x).1
    = Ok (StubTreq.partial_request "DELETE")
  ∧ StubTreq.put "http://x" ∅ client_x
    = StubTreq.request "PUT" "http://x" {["data" := VNone]} client_x.
Proof. by vm_compute. Qed.

(** * Further properties of the module *)

(** ** StubResponse: [==] is an equivalence *)

Lemma StubResponse_eq_true_iff (a b : StubResponse.t) :
  StubResponse.__eq__ a (StubResponse.ObjStubResponse b) = true ↔ a = b.
Proof.
  destruct a as [ca ha da], b as [cb hb db]; simpl.
  rewrite !andb_true_iff, !bool_decide_eq_true.
  split; [intros [[-> ->] ->] | intros [= -> -> ->]]; done.
Qed.

(** X1. Among responses [==] is symmetric and transitive and holds
    exactly between responses with the same three fields; against a
    value that is no [StubResponse] it is false and [!=] is true. *)
Theorem StubResponse_eq_equivalence
    (a b c : StubResponse.t) (v : pyval) :
  StubResponse.__eq__ a (StubResponse.ObjStubResponse b)
  = StubResponse.__eq__ b (StubResponse.ObjStubResponse a)
  ∧ (StubResponse.__eq__ a (StubResponse.ObjStubResponse b) = true →
     StubResponse.__eq__ b (StubResponse.ObjStubResponse c) = true →
     StubResponse.__eq__ a (StubResponse.ObjStubResponse c) = true)
  ∧ (StubResponse.__eq__ a (StubResponse.ObjStubResponse b) = true ↔ a = b)
  ∧ StubResponse.__eq__ a (StubResponse.ObjValue v) = false
  ∧ StubResponse.__ne__ a (StubResponse.ObjValue v) = true.
Proof.
  split; [| split; [| split; [| done]]].
  - destruct (StubResponse.__eq__ a _) eqn:Eab,
             (StubResponse.__eq__ b _) eqn:Eba; try done.
    + apply StubResponse_eq_true_iff in Eab as ->.
      by rewrite (proj2 (StubResponse_eq_true_iff b b)) in Eba.
    + apply StubResponse_eq_true_iff in Eba as ->.
      by rewrite (proj2 (StubResponse_eq_true_iff a a)) in Eab.
  - rewrite !StubResponse_eq_true_iff. congruence.
  - apply StubResponse_eq_true_iff.
Qed.

(** ** ResponseMapping: what the constructor checks and reports *)

Section MappingMore.
Import ResponseMapping.

Lemma check_item_raise_first (item : stub) (later : list stub) (e : exn) :
  check_item item later = Raise e →
  ∃ k (y : stub), later !! k = Some y ∧ item.1 = y.1
    ∧ e = duplicate_error item y
    ∧ ∀ k' (y' : stub), (k' < k)%nat → later !! k' = Some y' →
        item.1 ≠ y'.1.
Proof.
  induction later as [| x later IH]; simpl; [done |].
  destruct (request_eqb item.1 x.1) eqn:E.
  - intros [= <-]. apply request_eqb_eq in E.
    exists 0%nat, x. repeat split; try done. intros; lia.
  - intros (k & y & Hk & Hy & He & Hfirst)%IH.
    apply request_eqb_neq in E.
    exists (S k), y. repeat split; try done.
    intros [| k'] y' Hlt; simpl; [by intros [= <-] |].
    apply Hfirst. lia.
Qed.

Lemma check_from_raise_first (all todo : list stub) (i : nat) (e : exn) :
  drop i all = todo →
  check_from all i todo = Raise e →
  ∃ i' j (a b : stub), (i ≤ i' < j)%nat ∧ all !! i' = Some a
    ∧ all !! j = Some b ∧ a.1 = b.1 ∧ e = duplicate_error a b
    ∧ ∀ p q (x y : stub), (i ≤ p < q)%nat →
        all !! p = Some x → all !! q = Some y → x.1 = y.1 →
        (i' < p)%nat ∨ (p = i' ∧ (j ≤ q)%nat).
Proof.
  revert i. induction todo as [| item todo IH]; intros i Hdrop; simpl; [done |].
  destruct (drop_cons_inv _ _ _ _ Hdrop) as [Hi Hdrop'].
  destruct (check_item item (drop (S i) all)) as [u | e'] eqn:E.
  - intros (i' & j & a & b & Hij & Ha & Hb & Hab & He & Hfirst)%(IH _ Hdrop').
    exists i', j, a, b. repeat split; try done; try lia.
    intros p q x y Hpq Hx Hy Hxy.
    destruct (decide (p = i)) as [Heq | Hne].
    + subst p. exfalso. rewrite Hi in Hx. injection Hx as <-.
      apply (check_item_ok _ _ _ E y); [| done].
      apply list_elem_of_lookup. exists (q - S i)%nat.
      rewrite lookup_drop, <- Hy. f_equal. lia.
    + apply (Hfirst p q x y); [lia | done | done | done].
  - intros [= ->].
    apply check_item_raise_first in E as (k & y & Hk & Hy & He & Hfirst).
    rewrite lookup_drop in Hk.
    exists i, (S i + k)%nat, item, y. repeat split; try done; try lia.
    intros p q x y' Hpq Hx Hy' Hxy.
    destruct (decide (p = i)) as [Heq | Hne]; [| left; lia].
    subst p. right. split; [done |].
    rewrite Hi in Hx. injection Hx as <-.
    destruct (decide (S i + k ≤ q)%nat) as [| Hlt]; [done |].
    exfalso. apply (Hfirst (q - S i)%nat y'); [lia | | done].
    rewrite lookup_drop, <- Hy'. f_equal. lia.
Qed.

Lemma init_Ok_stubs (entries : list stub) (self : t) :
  __init__ (Some entries) = Ok self → self = mk entries.
Proof.
  unfold __init__. destruct (check_from entries 0 entries); congruence.
Qed.

Lemma init_Ok_iff_NoDup (entries : list stub) :
  __init__ (Some entries) = Ok (mk entries) ↔ NoDup (entries.*1).
Proof.
  unfold __init__.
  destruct (check_from entries 0 entries) as [u | e] eqn:E.
  - split; [intros _ | done].
    apply NoDup_alt. intros i j key. rewrite !list_lookup_fmap.
    unfold stub in *.
    destruct (entries !! i) as [a |] eqn:Ha; simpl; [| done].
    destruct (entries !! j) as [b |] eqn:Hb; simpl; [| done].
    intros [= <-] [= Hab].
    pose proof (check_from_ok entries entries 0 u (drop_0 _) E) as Hok.
    destruct (Nat.lt_trichotomy i j) as [Hlt | [Heq | Hgt]]; [| done |].
    + exfalso. apply (Hok i j a b); [lia | done | done | done].
    + exfalso. apply (Hok j i b a); [lia | done | done | done].
  - split; [done |]. intros Hnd. exfalso.
    apply check_from_raise in E as (i & j & a & b & Hij & Ha & Hb & Hab & _);
      [| apply drop_0].
    assert (i = j) as Heq; [| lia].
    unfold stub in *.
    apply (proj1 (NoDup_alt (entries.*1)) Hnd i j a.1);
      rewrite list_lookup_fmap; [by rewrite Ha | by rewrite Hb, Hab].
Qed.

Lemma scan_NoDup (entries : list stub) (key : request)
    (resp : StubResponse.t) :
  NoDup (entries.*1) → (key, resp) ∈ entries → scan entries key = Some resp.
Proof.
  induction entries as [| [req r] entries IH]; simpl.
  - intros _ Hin. by apply elem_of_nil in Hin.
  - rewrite NoDup_cons. intros [Hreq Hnd] Hin.
    apply elem_of_cons in Hin as [[= <- <-] | Hin].
    + by rewrite request_eqb_refl.
    + destruct (request_eqb req key) eqn:E; [| by apply IH].
      apply request_eqb_eq in E as ->. exfalso. apply Hreq.
      by apply (list_elem_of_fmap_2 fst entries (key, resp)).
Qed.

End MappingMore.

(** X2. When the constructor of [ResponseMapping] raises, the two
    entries named in the exception are the first clashing pair in loop
    order: no clash starts at an earlier position, and none with the
    same first entry ends earlier. *)
Theorem ResponseMapping_init_reports_first_pair
    (entries : list stub) (e : exn) :
  ResponseMapping.__init__ (Some entries) = Raise e →
  ∃ i j (a b : stub), (i < j)%nat ∧ entries !! i = Some a
    ∧ entries !! j = Some b ∧ a.1 = b.1
    ∧ e = ResponseMapping.duplicate_error a b
    ∧ ∀ p q (x y : stub), (p < q)%nat →
        entries !! p = Some x → entries !! q = Some y → x.1 = y.1 →
        (i < p)%nat ∨ (p = i ∧ (j ≤ q)%nat).
Proof.
  unfold ResponseMapping.__init__.
  destruct (ResponseMapping.check_from entries 0 entries) as [u | e0] eqn:E;
    [done |].
  intros [= <-].
  apply check_from_raise_first in E
    as (i & j & a & b & Hij & Ha & Hb & Hab & He & Hfirst); [| apply drop_0].
  exists i, j, a, b. repeat split; try done; try lia.
  intros p q x y Hpq. apply Hfirst. lia.
Qed.

(** X3. Once the constructor has accepted a list of stubs, every stub in
    it is found again, wherever it stands: [get_response] with the
    request of an entry returns the response of that entry and leaves
    the mapping as it was. *)
Theorem ResponseMapping_every_stub_is_found
    (entries : list stub) (self : ResponseMapping.t)
    (method url : string) (kwargs : gmap string pyval)
    (resp : StubResponse.t) :
  ResponseMapping.__init__ (Some entries) = Ok self →
  ((method, url, kwargs), resp) ∈ entries →
  ResponseMapping.get_response method url kwargs self = (Ok resp, self).
Proof.
  intros Hinit Hin.
  pose proof (init_Ok_stubs _ _ Hinit) as ->.
  apply init_Ok_iff_NoDup in Hinit.
  unfold ResponseMapping.get_response, py_bind, py_self; simpl.
  by rewrite (scan_NoDup _ _ _ Hinit Hin).
Qed.

Lemma ResponseMapping_init_reports_first_pair_witness :
  ResponseMapping.__init__ (Some clashing_stubs)
  = Raise (ResponseMapping.duplicate_error
             (get_a, response_200) (get_a, response_404))
  ∧ ∃ i j (a b : stub), (i < j)%nat ∧ clashing_stubs !! i = Some a
      ∧ clashing_stubs !! j = Some b ∧ a.1 = b.1
      ∧ ResponseMapping.duplicate_error
          (get_a, response_200) (get_a, response_404)
        = ResponseMapping.duplicate_error a b
      ∧ ∀ p q (x y : stub), (p < q)%nat →
          clashing_stubs !! p = Some x → clashing_stubs !! q = Some y →
          x.1 = y.1 → (i < p)%nat ∨ (p = i ∧ (j ≤ q)%nat).
Proof.
  split; [vm_compute; reflexivity |].
  apply (ResponseMapping_init_reports_first_pair clashing_stubs).
  vm_compute; reflexivity.
Defined.

Lemma ResponseMapping_every_stub_is_found_witness :
  ResponseMapping.__init__ (Some two_stubs) = Ok (ResponseMapping.mk two_stubs)
  ∧ (("GET", "http://b", ∅), response_404) ∈ two_stubs
  ∧ ResponseMapping.get_response "GET" "http://b" ∅
      (ResponseMapping.mk two_stubs)
    = (Ok response_404, ResponseMapping.mk two_stubs).
Proof.
  split; [vm_compute; reflexivity |].
  split; [right; left |].
  apply (ResponseMapping_every_stub_is_found two_stubs).
  - vm_compute; reflexivity.
  - right; left.
Defined.

(** ** ResponseMapping: the order of the stubs, and joining two lists *)

Lemma scan_Permutation (entries entries' : list stub) (key : request) :
  NoDup (entries.*1) → entries ≡ₚ entries' →
  ResponseMapping.scan entries' key = ResponseMapping.scan entries key.
Proof.
  intros Hnd Hperm.
  assert (NoDup (entries'.*1)) as Hnd' by by rewrite <- Hperm.
  destruct (ResponseMapping.scan entries key) as [resp |] eqn:E.
  - apply scan_Some in E as [i [Hi _]].
    apply scan_NoDup; [done |]. rewrite <- Hperm.
    apply list_elem_of_lookup. by exists i.
  - apply scan_None. intros y Hy. rewrite <- Hperm in Hy.
    by apply (proj1 (scan_None entries key) E).
Qed.

(** X4. The order in which the stubs are listed does not matter: when the
    constructor accepts a list it accepts every reordering of it, and
    the two mappings answer every request alike. *)
Theorem ResponseMapping_order_of_stubs_irrelevant
    (entries entries' : list stub) (self : ResponseMapping.t) :
  entries ≡ₚ entries' →
  ResponseMapping.__init__ (Some entries) = Ok self →
  ∃ self', ResponseMapping.__init__ (Some entries') = Ok self'
    ∧ ResponseMapping.stubs self' = entries'
    ∧ ∀ method url kwargs,
        (ResponseMapping.get_response method url kwargs self').1
        = (ResponseMapping.get_response method url kwargs self).1.
Proof.
  intros Hperm Hinit.
  pose proof (init_Ok_stubs _ _ Hinit) as ->.
  apply init_Ok_iff_NoDup in Hinit.
  exists (ResponseMapping.mk entries'). split; [| split; [done |]].
  - apply init_Ok_iff_NoDup. by rewrite <- Hperm.
  - intros method url kwargs.
    unfold ResponseMapping.get_response, py_bind, py_self; simpl.
    rewrite (scan_Permutation entries entries' _ Hinit Hperm).
    by destruct (ResponseMapping.scan entries (method, url, kwargs)).
Qed.

Lemma ResponseMapping_order_of_stubs_irrelevant_witness :
  two_stubs ≡ₚ reverse two_stubs
  ∧ ResponseMapping.__init__ (Some two_stubs)
    = Ok (ResponseMapping.mk two_stubs)
  ∧ ∃ self', ResponseMapping.__init__ (Some (reverse two_stubs)) = Ok self'
      ∧ ResponseMapping.stubs self' = reverse two_stubs
      ∧ ∀ method url kwargs,
          (ResponseMapping.get_response method url kwargs self').1
          = (ResponseMapping.get_response method url kwargs
               (ResponseMapping.mk two_stubs)).1.
Proof.
  split; [symmetry; apply reverse_Permutation |].
  split; [vm_compute; reflexivity |].
  apply (ResponseMapping_order_of_stubs_irrelevant two_stubs).
  - symmetry; apply reverse_Permutation.
  - vm_compute; reflexivity.
Defined.

(** X5. Two lists of stubs joined are accepted by the constructor
    exactly when each is accepted alone and no request of the first is a
    request of the second. *)
Theorem ResponseMapping_init_app (l1 l2 : list stub) :
  ResponseMapping.__init__ (Some (l1 ++ l2)%list)
  = Ok (ResponseMapping.mk (l1 ++ l2)%list)
  ↔ ResponseMapping.__init__ (Some l1) = Ok (ResponseMapping.mk l1)
    ∧ ResponseMapping.__init__ (Some l2) = Ok (ResponseMapping.mk l2)
    ∧ ∀ a b : stub, a ∈ l1 → b ∈ l2 → a.1 ≠ b.1.
Proof.
  rewrite !init_Ok_iff_NoDup, fmap_app, NoDup_app.
  split.
  - intros (H1 & Hdisj & H2). repeat split; try done.
    intros a b Ha Hb Hab. apply (Hdisj a.1).
    + by apply list_elem_of_fmap_2.
    + rewrite Hab. by apply list_elem_of_fmap_2.
  - intros (H1 & H2 & Hdisj). repeat split; try done.
    intros key (a & -> & Ha)%list_elem_of_fmap (b & Hab & Hb)%list_elem_of_fmap.
    by apply (Hdisj a b).
Qed.

(** ** The two strategies side by side *)

(** X6. Whatever a [ResponseSequence] returns for a request, a
    [ResponseMapping] holding the same list of stubs returns for it too:
    the sequence answers only for its first entry, the mapping for that
    one among others. *)
Theorem ResponseSequence_success_agrees_with_mapping
    (entries : list stub) (method url : string)
    (kwargs : gmap string pyval) (resp : StubResponse.t) :
  (ResponseSequence.get_response method url kwargs
     (ResponseSequence.mk entries)).1 = Ok resp →
  (ResponseMapping.get_response method url kwargs
     (ResponseMapping.mk entries)).1 = Ok resp.
Proof.
  rewrite ResponseSequence_get_response_eq; simpl.
  unfold ResponseMapping.get_response, py_bind, py_self; simpl.
  destruct entries as [| [req r] entries]; simpl; [done |].
  by destruct (request_eqb req (method, url, kwargs)).
Qed.

Lemma ResponseSequence_success_agrees_with_mapping_witness :
  (ResponseSequence.get_response "GET" "http://a" ∅
     (ResponseSequence.mk two_stubs)).1 = Ok response_200
  ∧ (ResponseMapping.get_response "GET" "http://a" ∅
       (ResponseMapping.mk two_stubs)).1 = Ok response_200.
Proof.
  split; [vm_compute; reflexivity |].
  apply (ResponseSequence_success_agrees_with_mapping two_stubs).
  vm_compute; reflexivity.
Defined.

(** X7. Built without stubs, either strategy is the empty one, and every
    request made of it, directly or through a [StubTreq], raises the
    strategy's [ValueError] for that request. *)
Theorem empty_strategies_reject_every_request
    (method url : string) (kwargs : gmap string pyval) :
  ResponseMapping.__init__ None = Ok (ResponseMapping.mk [])
  ∧ ResponseSequence.__init__ None = Ok (ResponseSequence.mk [])
  ∧ (StubTreq.request method url kwargs
       (StubTreq.__init__ (ResponseMapping.mk []))).1
    = Raise (ResponseMapping.not_mapped_error method url kwargs)
  ∧ (StubTreq.request method url kwargs
       (StubTreq.__init__ (ResponseSequence.mk []))).1
    = Raise (ResponseSequence.not_expecting_error method url kwargs).
Proof. repeat split. Qed.

(** ** StubTreq: what its calls leave alone *)

Section FacadeFrame.
Context {S : Type} `{MatchStrategy S}.
Hypothesis get_response_state :
  ∀ (s : S) method url kwargs, (get_response method url kwargs s).2 = s.

Lemma request_state (self : StubTreq.t S) (method url : string)
    (kwargs : gmap string pyval) :
  (StubTreq.request method url kwargs self).2 = self.
Proof.
  rewrite request_unfold; simpl. rewrite get_response_state.
  by destruct self.
Qed.

Lemma client_unchanged (self : StubTreq.t S) : client_unchanged_by_calls self.
Proof.
  intros method url name kwargs keywords response f.
  split; [apply request_state |].
  split; [apply request_state |].
  split; [apply request_state |].
  split; [done |].
  split.
  - unfold StubTreq.__getattr__. by destruct (existsb _ _).
  - destruct f. apply request_state.
Qed.

End FacadeFrame.

(** X8. Over a [ResponseMapping] and over a [ResponseSequence] alike, no
    call on a [StubTreq] changes it: after [request], [put], [post],
    [content], an attribute lookup or a call of what the lookup
    returned, whether it raised or not, the client and the stubs it
    holds are what they were. *)
Theorem StubTreq_calls_leave_client_unchanged :
  (∀ self : StubTreq.t ResponseMapping.t, client_unchanged_by_calls self)
  ∧ (∀ self : StubTreq.t ResponseSequence.t, client_unchanged_by_calls self).
Proof.
  split; intros self.
  - apply client_unchanged. apply ResponseMapping_get_response_state.
  - apply client_unchanged. apply ResponseSequence_get_response_state.
Qed.

(** ** StubTreq over a ResponseMapping *)

Lemma mapping_request_Ok (self : StubTreq.t ResponseMapping.t)
    (method url : string) (kwargs : gmap string pyval)
    (d : Deferred StubResponse.t) :
  (StubTreq.request method url kwargs self).1 = Ok d →
  ∃ resp, d = Succeeded resp
    ∧ ((method, url, kwargs), resp)
        ∈ ResponseMapping.stubs (StubTreq.stubs self).
Proof.
  rewrite request_unfold; simpl.
  unfold get_response, ResponseMapping.strategy,
    ResponseMapping.get_response, py_bind, py_self; simpl.
  destruct (ResponseMapping.scan _ _) as [resp |] eqn:E; simpl; [| done].
  intros [= <-]. exists resp. split; [done |].
  apply scan_Some in E as [i [Hi _]].
  apply list_elem_of_lookup. by exists i.
Qed.

(** X9. [put] and [post] always send a [data] keyword, [None] when the
    caller gave none: over a [ResponseMapping] they return only the
    response of a stub whose method is ['PUT'] (['POST']), whose url is
    the one given and whose kwargs hold [data] with that value, so a
    stub written without [data] is never what they return. *)
Theorem StubTreq_put_post_match_stubs_with_data
    (self : StubTreq.t ResponseMapping.t) (is_post : bool)
    (url : string) (keywords : gmap string pyval)
    (d : Deferred StubResponse.t) :
  ((if is_post then StubTreq.post else StubTreq.put) url keywords self).1
  = Ok d →
  ∃ resp kwargs,
    d = Succeeded resp
    ∧ ((if is_post then "POST" else "PUT", url, kwargs), resp)
        ∈ ResponseMapping.stubs (StubTreq.stubs self)
    ∧ kwargs !! "data" = Some (default VNone (keywords !! "data"))
    ∧ delete "data" kwargs = delete "data" keywords.
Proof.
  destruct is_post; unfold StubTreq.post, StubTreq.put, StubTreq.bind_data;
    intros (resp & -> & Hin)%mapping_request_Ok;
    eexists resp, _; (split; [done |]); (split; [exact Hin |]);
    (split; [apply lookup_insert_eq |]);
    by rewrite delete_insert_eq, delete_delete_eq.
Qed.

Lemma StubTreq_put_post_match_stubs_with_data_witness :
  (StubTreq.put "http://x" ∅ put_client).1 = Ok (Succeeded response_200)
  ∧ ∃ resp kwargs,
      Succeeded response_200 = Succeeded resp
      ∧ (("PUT", "http://x", kwargs), resp)
          ∈ ResponseMapping.stubs (StubTreq.stubs put_client)
      ∧ kwargs !! "data" = Some (default VNone ((∅ : gmap string pyval) !! "data"))
      ∧ delete "data" kwargs = delete "data" (∅ : gmap string pyval).
Proof.
  split; [vm_compute; reflexivity |].
  apply (StubTreq_put_post_match_stubs_with_data put_client false).
  vm_compute; reflexivity.
Defined.

(** X10. A client over a mapping the constructor accepted resolves the
    request of every stub to that stub's response, and [content] of
    that response to its data, with the client unchanged by both. *)
Theorem StubTreq_request_then_content
    (entries : list stub) (mapping : ResponseMapping.t)
    (method url : string) (kwargs : gmap string pyval)
    (resp : StubResponse.t) :
  ResponseMapping.__init__ (Some entries) = Ok mapping →
  ((method, url, kwargs), resp) ∈ entries →
  StubTreq.request method url kwargs (StubTreq.__init__ mapping)
  = (Ok (Succeeded resp), StubTreq.__init__ mapping)
  ∧ StubTreq.content resp (StubTreq.__init__ mapping)
    = (Ok (Succeeded (StubResponse._data resp)), StubTreq.__init__ mapping).
Proof.
  intros Hinit Hin. split; [| done].
  pose proof (init_Ok_stubs _ _ Hinit) as ->.
  apply init_Ok_iff_NoDup in Hinit.
  rewrite request_unfold; simpl.
  unfold get_response, ResponseMapping.strategy,
    ResponseMapping.get_response, py_bind, py_self; simpl.
  by rewrite (scan_NoDup _ _ _ Hinit Hin).
Qed.

Lemma StubTreq_request_then_content_witness :
  ResponseMapping.__init__ (Some two_stubs) = Ok (ResponseMapping.mk two_stubs)
  ∧ (("GET", "http://a", ∅), response_200) ∈ two_stubs
  ∧ StubTreq.request "GET" "http://a" ∅
      (StubTreq.__init__ (ResponseMapping.mk two_stubs))
    = (Ok (Succeeded response_200),
       StubTreq.__init__ (ResponseMapping.mk two_stubs))
  ∧ StubTreq.content response_200
      (StubTreq.__init__ (ResponseMapping.mk two_stubs))
    = (Ok (Succeeded (StubResponse._data response_200)),
       StubTreq.__init__ (ResponseMapping.mk two_stubs)).
Proof.
  split; [vm_compute; reflexivity |].
  split; [left |].
  apply (StubTreq_request_then_content two_stubs).
  - vm_compute; reflexivity.
  - left.
Defined.

(** X11. What [stub.get], [stub.head] and [stub.delete] return, called
    with a url and kwargs on a client over a [ResponseMapping], resolves
    only to a stub whose method is the upper-case name, ['GET'],
    ['HEAD'] or ['DELETE'], with that url and those kwargs; a stub
    written with the lower-case name is never what they return. *)
Theorem StubTreq_getattr_call_matches_upper_case_stub
    (self : StubTreq.t ResponseMapping.t) (name url : string)
    (kwargs : gmap string pyval) (f : StubTreq.callable)
    (d : Deferred StubResponse.t) :
  (StubTreq.__getattr__ name self).1 = Ok f →
  (StubTreq.call f url kwargs self).1 = Ok d →
  upper name ∈ ["GET"; "HEAD"; "DELETE"]
  ∧ upper name ≠ name
  ∧ ∃ resp, d = Succeeded resp
      ∧ ((upper name, url, kwargs), resp)
          ∈ ResponseMapping.stubs (StubTreq.stubs self).
Proof.
  unfold StubTreq.__getattr__.
  destruct (existsb (String.eqb name) ["get"; "head"; "delete"]) eqn:E;
    [| done].
  intros [= <-]; simpl. intros Hcall%mapping_request_Ok.
  apply existsb_exists in E as (x & Hx & ->%String.eqb_eq).
  split; [| split; [| done]].
  - apply list_elem_of_In. simpl in Hx.
    destruct Hx as [<- | [<- | [<- | []]]]; simpl; auto.
  - simpl in Hx. by destruct Hx as [<- | [<- | [<- | []]]].
Qed.

Lemma StubTreq_getattr_call_matches_upper_case_stub_witness :
  (StubTreq.__getattr__ "get" client_x).1
  = Ok (StubTreq.partial_request "GET")
  ∧ (StubTreq.call (StubTreq.partial_request "GET") "http://x" ∅ client_x).1
    = Ok (Succeeded response_200)
  ∧ upper "get" ∈ ["GET"; "HEAD"; "DELETE"]
  ∧ upper "get" ≠ "get"
  ∧ ∃ resp, Succeeded response_200 = Succeeded resp
      ∧ ((upper "get", "http://x", ∅), resp)
          ∈ ResponseMapping.stubs (StubTreq.stubs client_x).
Proof.
  split; [vm_compute; reflexivity |].
  split; [vm_compute; reflexivity |].
  apply (StubTreq_getattr_call_matches_upper_case_stub client_x
           "get" "http://x" ∅ (StubTreq.partial_request "GET")).
  - vm_compute; reflexivity.
  - vm_compute; reflexivity.
Defined.
